(** * SketchRNN (ml5): the stateful stroke-generation wrapper

    A shallow embedding of [src/SketchRNN/index.js].  The file has three
    layers:

    - [Js]: the fragment of JavaScript values and operators the wrapper
      uses (property reads, [===] against literals, truthiness, unary [+],
      [||]);
    - the stroke codec: the seed-stroke encoder (the arrow function mapped
      over the seed array in [generate]) and the result decoder (the tail
      of [generateInternal]);
    - the session: the class [SketchRNN] with its fields, written in a small
      state/exception monad that also records every call made on the
      wrapped [ms.SketchRNN] object.

    The wrapped model of [@magenta/sketch] is an external collaborator; it
    is a type class [MagentaSketch] whose methods are left abstract. *)

From Stdlib Require Import List String Bool Arith Lia Floats.
Import ListNotations.
Local Open Scope string_scope.
Local Open Scope list_scope.

Set Implicit Arguments.
Set Warnings "-register-all,-inexact-float".

(* ===================================================================== *)
(** ** JavaScript values *)
(* ===================================================================== *)

Module Js.

(** JavaScript values.  Numbers are IEEE-754 binary64, as in the
    language; objects are plain records of own data properties, looked up
    by name (first match). *)
Inductive JsVal : Type :=
| JUndefined
| JNull
| JBool (b : bool)
| JNum (n : float)
| JStr (s : string)
| JArr (elems : list JsVal)
| JObj (props : list (string * JsVal))
| JFun (id : nat).

(** What a rejected promise (or a [throw]) carries. *)
Inductive JsError : Type :=
| TypeError (msg : string)
| Reason (v : JsVal).

(** Computations that may throw. *)
Definition Exc (A : Type) : Type := (JsError + A)%type.

Definition ok {A} (a : A) : Exc A := inr a.
Definition throw {A} (e : JsError) : Exc A := inl e.

Definition bindE {A B} (c : Exc A) (k : A -> Exc B) : Exc B :=
  match c with
  | inl e => inl e
  | inr a => k a
  end.

(** [Array.prototype.map] with a callback that may throw: elements are
    visited left to right and the first exception aborts the map. *)
Fixpoint mapE {A B} (f : A -> Exc B) (l : list A) : Exc (list B) :=
  match l with
  | [] => ok []
  | a :: l' =>
      bindE (f a) (fun b => bindE (mapE f l') (fun bs => ok (b :: bs)))
  end.

(** Own-property lookup in a property list. *)
Fixpoint lookup (k : string) (props : list (string * JsVal)) : option JsVal :=
  match props with
  | [] => None
  | (k', v) :: rest => if String.eqb k k' then Some v else lookup k rest
  end.

(** [v.k] for the data-property names the wrapper reads ([temperature],
    [pixelFactor], [pen], [dx], [dy]): a [TypeError] on [undefined] and
    [null], the stored value on an object that has the property, and
    [undefined] everywhere else. *)
Definition getProp (v : JsVal) (k : string) : Exc JsVal :=
  match v with
  | JUndefined => throw (TypeError "Cannot read properties of undefined")
  | JNull => throw (TypeError "Cannot read properties of null")
  | JObj props =>
      match lookup k props with
      | Some x => ok x
      | None => ok JUndefined
      end
  | _ => ok JUndefined
  end.

(** [o.k = v] on a plain object: the property is created or overwritten. *)
Fixpoint assign (k : string) (v : JsVal) (props : list (string * JsVal))
  : list (string * JsVal) :=
  match props with
  | [] => [(k, v)]
  | (k', v') :: rest =>
      if String.eqb k k' then (k, v) :: rest else (k', v') :: assign k v rest
  end.

(** [k in o] restricted to own properties. *)
Definition hasProp (v : JsVal) (k : string) : bool :=
  match v with
  | JObj props => match lookup k props with Some _ => true | None => false end
  | _ => false
  end.

(** [a[i]] on an array: [undefined] out of range. *)
Definition index (a : list JsVal) (i : nat) : JsVal := nth i a JUndefined.

(** [v === 'lit'] for a string literal. *)
Definition strict_eq_str (v : JsVal) (lit : string) : bool :=
  match v with
  | JStr s => String.eqb s lit
  | _ => false
  end.

(** [v === n] for a number literal: IEEE equality, so [NaN] equals
    nothing and [-0 === 0]. *)
Definition strict_eq_num (v : JsVal) (n : float) : bool :=
  match v with
  | JNum x => PrimFloat.eqb x n
  | _ => false
  end.

(** ToBoolean on a number: [NaN], [+0] and [-0] are falsy. *)
Definition truthy_num (n : float) : bool :=
  negb (PrimFloat.is_nan n || PrimFloat.is_zero n).

(** ToBoolean. *)
Definition truthy (v : JsVal) : bool :=
  match v with
  | JUndefined | JNull => false
  | JBool b => b
  | JNum n => truthy_num n
  | JStr s => negb (String.eqb s "")
  | JArr _ | JObj _ | JFun _ => true
  end.

(** [a || b]. *)
Definition js_or (a b : JsVal) : JsVal := if truthy a then a else b.

(** [a || b] when both operands are numbers. *)
Definition num_or (a b : float) : float := if truthy_num a then a else b.

(** [typeof v === 'function'] and [Array.isArray(v)]. *)
Definition is_function (v : JsVal) : bool :=
  match v with JFun _ => true | _ => false end.

Definition is_array (v : JsVal) : bool :=
  match v with JArr _ => true | _ => false end.

(** The parts of ToNumber that belong to the language runtime and are
    not re-implemented here: parsing a string as a numeric literal, and
    the string an object, array or function converts to (ToPrimitive). *)
Class Runtime : Type := {
  StringToNumber : string -> float;
  ObjectToString : JsVal -> string
}.

(** Unary [+v] (ToNumber). *)
Definition to_number `{Runtime} (v : JsVal) : float :=
  match v with
  | JUndefined => PrimFloat.nan
  | JNull => PrimFloat.zero
  | JBool true => PrimFloat.one
  | JBool false => PrimFloat.zero
  | JNum n => n
  | JStr s => StringToNumber s
  | JArr _ | JObj _ | JFun _ => StringToNumber (ObjectToString v)
  end.

End Js.
Import Js.

Declare Scope exc_scope.
Delimit Scope exc_scope with exc.
Notation "x <- c ;; k" := (bindE c (fun x => k))
  (at level 61, c at next level, right associativity) : exc_scope.

(* ===================================================================== *)
(** ** The stroke codec *)
(* ===================================================================== *)

(** The model's input/output vector: a JavaScript array
    [[dx, dy, down, up, end]]. *)
Definition Vec : Type := list JsVal.

(** The public stroke, as the data model describes it. *)
Inductive Pen : Type := PenDown | PenUp | PenEnd.

Record PublicStroke : Type := mkStroke {
  dx : float;
  dy : float;
  pen : option Pen
}.

Definition pen_name (p : Pen) : string :=
  match p with
  | PenDown => "down"
  | PenUp => "up"
  | PenEnd => "end"
  end.

(** The object literal a caller writes for a public stroke; the [pen]
    property is left out when the pen field is absent. *)
Definition js_of_stroke (s : PublicStroke) : JsVal :=
  JObj ([("dx", JNum (dx s)); ("dy", JNum (dy s))]
        ++ match pen s with
           | Some p => [("pen", JStr (pen_name p))]
           | None => []
           end).

(** The conditional expression [c ? 1 : 0]. *)
Definition flag (c : bool) : JsVal :=
  if c then JNum PrimFloat.one else JNum PrimFloat.zero.

(** The arrow function of [generate] (index.js, 95-100):
<<
    s => {
      const up = s.pen === 'up' ? 1 : 0;
      const down = s.pen === 'down' ? 1 : 0;
      const end = s.pen === 'end' ? 1 : 0;
      return [s.dx, s.dy, down, up, end];
    }
>> *)
Definition encode (s : JsVal) : Exc Vec :=
  (p1 <- getProp s "pen" ;;
   let up := flag (strict_eq_str p1 "up") in
   p2 <- getProp s "pen" ;;
   let down := flag (strict_eq_str p2 "down") in
   p3 <- getProp s "pen" ;;
   let end_ := flag (strict_eq_str p3 "end") in
   x <- getProp s "dx" ;;
   y <- getProp s "dy" ;;
   ok [x; y; down; up; end_])%exc.

(** The tail of [generateInternal] (index.js, 58-69), applied to the
    freshly sampled [this.penState]:
<<
    const result = { dx: this.penState[0], dy: this.penState[1] };
    if (this.penState[2] === 1) { result.pen = 'down'; }
    else if (this.penState[3] === 1) { result.pen = 'up'; }
    else if (this.penState[4] === 1) { result.pen = 'end'; }
    return result;
>> *)
Definition decode (penState : Vec) : JsVal :=
  let result := [("dx", index penState 0); ("dy", index penState 1)] in
  if strict_eq_num (index penState 2) PrimFloat.one then
    JObj (assign "pen" (JStr "down") result)
  else if strict_eq_num (index penState 3) PrimFloat.one then
    JObj (assign "pen" (JStr "up") result)
  else if strict_eq_num (index penState 4) PrimFloat.one then
    JObj (assign "pen" (JStr "end") result)
  else JObj result.

(** A pen flag of a well-formed internal vector: the number [0] or the
    number [1]. *)
Definition is_bit (v : JsVal) : Prop :=
  v = JNum PrimFloat.zero \/ v = JNum PrimFloat.one.

(** At most one of three flags is [1]. *)
Definition at_most_one (d u e : JsVal) : Prop :=
  (d = JNum PrimFloat.one -> u <> JNum PrimFloat.one /\ e <> JNum PrimFloat.one)
  /\ (u = JNum PrimFloat.one -> e <> JNum PrimFloat.one).

(* ===================================================================== *)
(** ** The wrapped model and the session monad *)
(* ===================================================================== *)

(** How the promise returned by [model.initialize()] settles: it is
    fulfilled, it is rejected with whatever the library threw (a
    [TypeError] of a failed fetch, or any other value), or it never
    settles. *)
Inductive LoadOutcome : Type :=
| Loaded
| LoadFailed (e : JsError)
| LoadHangs.

(** The object [ms.SketchRNN] of [@magenta/sketch], by the methods the
    wrapper calls.  [Model] is what the object holds and a call may change
    (the pixel factor, the sampler's randomness); the recurrent state and
    the distribution are opaque. *)
Class MagentaSketch : Type := {
  LSTMState : Type;
  PDF : Type;
  Model : Type;
  newModel : string -> Model;
  initialize : Model -> LoadOutcome;
  zeroInput : Model -> Vec;
  zeroState : Model -> LSTMState;
  setPixelFactor : float -> Model -> Model;
  updateStrokes : Model -> list Vec -> LSTMState -> LSTMState;
  update : Model -> Vec -> LSTMState -> LSTMState;
  getPDF : Model -> LSTMState -> float -> PDF;
  sample : Model -> PDF -> Vec * Model
}.

(** The set imported from [./models], by its membership test. *)
Class ModelPaths : Type := modelPaths_has : string -> bool.

Definition PATH_START_LARGE : string :=
  "https://storage.googleapis.com/quickdraw-models/sketchRNN/large_models/".
Definition PATH_START_SMALL : string :=
  "https://storage.googleapis.com/quickdraw-models/sketchRNN/models/".
Definition PATH_END : string := ".gen.json".

(** Modelled from the spec: [callCallback] of [../utils/callcallback] is
    not among the sources.  By sections 4.2 and 9 of the specification it
    is an adapter that hands back the asynchronous operation it is given
    and, when a completion function is supplied, also notifies it of the
    outcome; the notification happens outside the session and is not
    represented. *)
Definition callCallback {P : Type} (promise : P) (callback : JsVal) : P :=
  promise.

Section Session.

Context {ms : MagentaSketch} {rt : Runtime} {paths : ModelPaths}.

(** [this.defaults]. *)
Record Defaults : Type := mkDefaults {
  temperature : float;
  pixelFactor : float
}.

(** The fields of a [SketchRNN] instance.  [rnnState] is [None] while the
    field is [undefined]. *)
Record SketchRNN : Type := mkSketchRNN {
  defaults : Defaults;
  model : Model;
  penState : Vec;
  ready : LoadOutcome;
  rnnState : option LSTMState
}.

Definition with_model (m : Model) (s : SketchRNN) : SketchRNN :=
  mkSketchRNN (defaults s) m (penState s) (ready s) (rnnState s).
Definition with_penState (p : Vec) (s : SketchRNN) : SketchRNN :=
  mkSketchRNN (defaults s) (model s) p (ready s) (rnnState s).
Definition with_rnnState (r : LSTMState) (s : SketchRNN) : SketchRNN :=
  mkSketchRNN (defaults s) (model s) (penState s) (ready s) (Some r).

(** One call on [this.model], with its arguments. *)
Inductive ModelCall : Type :=
| CallInitialize
| CallZeroInput
| CallZeroState
| CallSetPixelFactor (f : float)
| CallUpdateStrokes (strokes : list Vec) (r : LSTMState)
| CallUpdate (p : Vec) (r : LSTMState)
| CallGetPDF (r : LSTMState) (t : float)
| CallSample (d : PDF).

(** How an operation on the session ends: its promise is fulfilled with a
    value, rejected, or left pending for ever. *)
Inductive Completion (A : Type) : Type :=
| Resolved (a : A)
| Rejected (e : JsError)
| Pending.
Arguments Rejected {A} e.
Arguments Pending {A}.

(** The run of an operation: how it ended, the session it leaves, and the
    calls it made on the model, in order. *)
Record Run (A : Type) : Type := mkRun {
  completion : Completion A;
  after : SketchRNN;
  calls : list ModelCall
}.

Definition Act (A : Type) : Type := SketchRNN -> Run A.

Definition ret {A} (a : A) : Act A := fun s => mkRun (Resolved a) s [].

(** Sequencing: the second operation runs on the session the first one
    left, if the first one was fulfilled; the calls add up. *)
Definition bindA {A B} (c : Act A) (k : A -> Act B) : Act B :=
  fun s =>
    match c s with
    | mkRun (Resolved a) s1 cs1 =>
        match k a s1 with
        | mkRun c2 s2 cs2 => mkRun c2 s2 (cs1 ++ cs2)
        end
    | mkRun (Rejected e) s1 cs1 => mkRun (Rejected e) s1 cs1
    | mkRun Pending s1 cs1 => mkRun Pending s1 cs1
    end.

Definition liftE {A} (c : Exc A) : Act A :=
  fun s =>
    match c with
    | inr a => mkRun (Resolved a) s []
    | inl e => mkRun (Rejected e) s []
    end.

Declare Scope act_scope.
Delimit Scope act_scope with act.
Local Notation "x <- c ;; k" := (bindA c (fun x => k))
  (at level 61, c at next level, right associativity) : act_scope.
Local Notation "c ;; k" := (bindA c (fun _ => k))
  (at level 61, right associativity) : act_scope.
Local Open Scope act_scope.

(** Field reads and writes. *)
Definition this_defaults : Act Defaults :=
  fun s => mkRun (Resolved (defaults s)) s [].
Definition this_penState : Act Vec :=
  fun s => mkRun (Resolved (penState s)) s [].
Definition this_rnnState : Act (option LSTMState) :=
  fun s => mkRun (Resolved (rnnState s)) s [].
Definition set_penState (p : Vec) : Act unit :=
  fun s => mkRun (Resolved tt) (with_penState p s) [].
Definition set_rnnState (r : LSTMState) : Act unit :=
  fun s => mkRun (Resolved tt) (with_rnnState r s) [].

(** [this.rnnState] where the model needs a recurrent state.  The model is
    never handed [undefined] (lemma [rnnState_arg_defined] below); that
    branch stands for the failure inside the library. *)
Definition rnnState_arg : Act LSTMState :=
  fun s =>
    match rnnState s with
    | Some r => mkRun (Resolved r) s []
    | None => mkRun (Rejected (TypeError "state is undefined")) s []
    end.

(** [await this.ready]. *)
Definition await_ready : Act unit :=
  fun s =>
    match ready s with
    | Loaded => mkRun (Resolved tt) s []
    | LoadFailed e => mkRun (Rejected e) s []
    | LoadHangs => mkRun Pending s []
    end.

(** The calls on [this.model]; each one is recorded. *)
Definition model_zeroInput : Act Vec :=
  fun s => mkRun (Resolved (zeroInput (model s))) s [CallZeroInput].
Definition model_zeroState : Act LSTMState :=
  fun s => mkRun (Resolved (zeroState (model s))) s [CallZeroState].
Definition model_setPixelFactor (f : float) : Act unit :=
  fun s =>
    mkRun (Resolved tt) (with_model (setPixelFactor f (model s)) s)
          [CallSetPixelFactor f].
Definition model_updateStrokes (strokes : list Vec) (r : LSTMState)
  : Act LSTMState :=
  fun s =>
    mkRun (Resolved (updateStrokes (model s) strokes r)) s
          [CallUpdateStrokes strokes r].
Definition model_update (p : Vec) (r : LSTMState) : Act LSTMState :=
  fun s => mkRun (Resolved (update (model s) p r)) s [CallUpdate p r].
Definition model_getPDF (r : LSTMState) (t : float) : Act PDF :=
  fun s => mkRun (Resolved (getPDF (model s) r t)) s [CallGetPDF r t].
Definition model_sample (d : PDF) : Act Vec :=
  fun s =>
    mkRun (Resolved (fst (sample (model s) d)))
          (with_model (snd (sample (model s) d)) s)
          [CallSample d].

(* ===================================================================== *)
(** ** The class [SketchRNN] *)
(* ===================================================================== *)

(** [constructor(model, callback, large = true)] (index.js, 28-40).  The
    result is the new instance and the calls made on its model. *)
Definition SketchRNN_new (name : string) (callback : JsVal) (large : bool)
  : SketchRNN * list ModelCall :=
  let checkpointUrl :=
    if modelPaths_has name then
      ((if large then PATH_START_LARGE else PATH_START_SMALL)
         ++ name ++ PATH_END)%string
    else name in
  let m := newModel checkpointUrl in
  (mkSketchRNN (mkDefaults 0.65%float 3.0%float)
               m
               (zeroInput m)
               (callCallback (initialize m) callback)
               None,
   [CallZeroInput; CallInitialize]).

(** [+options.k || dflt]. *)
Definition numeric_option (v : JsVal) (dflt : float) : float :=
  num_or (to_number v) dflt.

(** The first-use block of [generateInternal] (index.js, 47-50):
<<
    if (!this.rnnState) {
      this.rnnState = this.model.zeroState();
      this.model.setPixelFactor(pixelFactor);
    }
>> *)
Definition lazy_init (pixelFactor : float) : Act unit :=
  r <- this_rnnState ;;
  match r with
  | None =>
      z <- model_zeroState ;;
      set_rnnState z ;;
      model_setPixelFactor pixelFactor
  | Some _ => ret tt
  end.

(** The seeding block of [generateInternal] (index.js, 52-54):
<<
    if (Array.isArray(strokes) && strokes.length) {
      this.rnnState = this.model.updateStrokes(strokes, this.rnnState);
    }
>> *)
Definition seed (strokes : list Vec) : Act unit :=
  if Nat.eqb (List.length strokes) 0 then ret tt
  else
    r <- rnnState_arg ;;
    r' <- model_updateStrokes strokes r ;;
    set_rnnState r'.

(** [async generateInternal(options, strokes)] (index.js, 42-70). *)
Definition generateInternal (options : JsVal) (strokes : list Vec)
  : Act JsVal :=
  t <- liftE (getProp options "temperature") ;;
  d <- this_defaults ;;
  let temperature := numeric_option t (temperature d) in
  f <- liftE (getProp options "pixelFactor") ;;
  d <- this_defaults ;;
  let pixelFactor := numeric_option f (pixelFactor d) in
  await_ready ;;
  lazy_init pixelFactor ;;
  seed strokes ;;
  p <- this_penState ;;
  r <- rnnState_arg ;;
  r' <- model_update p r ;;
  set_rnnState r' ;;
  r <- rnnState_arg ;;
  pdf <- model_getPDF r temperature ;;
  p' <- model_sample pdf ;;
  set_penState p' ;;
  p <- this_penState ;;
  ret (decode p).

(** [seedStrokes.map(f)] on an array, and on a value that has no [map] of
    its own, where the call throws.  An object that carries its own [map]
    property is outside this model: the code would call that method, which
    is the caller's code.  The predicate [plain_seed] below marks the
    values on which this definition is the code's behaviour, and the
    statements about refused seeds are restricted to them. *)
Definition array_map (f : JsVal -> Exc Vec) (v : JsVal) : Exc (list Vec) :=
  match v with
  | JArr l => mapE f l
  | JUndefined => throw (TypeError "Cannot read properties of undefined")
  | JNull => throw (TypeError "Cannot read properties of null")
  | _ => throw (TypeError "seedStrokes.map is not a function")
  end.


(** The overload resolution at the head of [generate] (index.js, 73-93):
    the triple [(options, seedStrokes, callback)]. *)
Definition resolve_arguments (optionsOrSeedOrCallback seedOrCallback cb : JsVal)
  : JsVal * JsVal * JsVal :=
  if is_function optionsOrSeedOrCallback then
    (JObj [], JArr [], optionsOrSeedOrCallback)
  else if is_array optionsOrSeedOrCallback then
    (JObj [], optionsOrSeedOrCallback, seedOrCallback)
  else if is_function seedOrCallback then
    (js_or optionsOrSeedOrCallback (JObj []), JArr [], seedOrCallback)
  else
    (js_or optionsOrSeedOrCallback (JObj []),
     js_or seedOrCallback (JArr []),
     cb).

(** [async generate(optionsOrSeedOrCallback, seedOrCallback, cb)]
    (index.js, 72-102).  A missing argument is [undefined]. *)
Definition generate (optionsOrSeedOrCallback seedOrCallback cb : JsVal)
  : Act JsVal :=
  let '(options, seedStrokes, callback) :=
    resolve_arguments optionsOrSeedOrCallback seedOrCallback cb in
  strokes <- liftE (array_map encode seedStrokes) ;;
  callCallback (generateInternal options strokes) callback.

(** [reset()] (index.js, 104-109). *)
Definition reset : Act unit :=
  z <- model_zeroInput ;;
  set_penState z ;;
  r <- this_rnnState ;;
  match r with
  | Some _ =>
      z' <- model_zeroState ;;
      set_rnnState z'
  | None => ret tt
  end.

(* ===================================================================== *)
(** ** The life of a session *)
(* ===================================================================== *)

(** What a caller can do with an instance. *)
Inductive Op : Type :=
| OpGenerate (a1 a2 a3 : JsVal)
| OpReset.

(** A session observed from outside: the instance as it is now, every
    call made on its model since construction, and whether some
    [generate] has been fulfilled. *)
Record Trace : Type := mkTrace {
  now : SketchRNN;
  history : list ModelCall;
  generated : bool
}.

Definition is_resolved {A} (c : Completion A) : bool :=
  match c with Resolved _ => true | _ => false end.

(** One operation on a session.  A rejected or pending [generate] leaves
    the instance to the caller as it is at that point; the caller may go
    on using it. *)
Definition perform (t : Trace) (o : Op) : Trace :=
  match o with
  | OpGenerate a1 a2 a3 =>
      let r := generate a1 a2 a3 (now t) in
      mkTrace (after r) (history t ++ calls r)
              (generated t || is_resolved (completion r))
  | OpReset =>
      let r := reset (now t) in
      mkTrace (after r) (history t ++ calls r) (generated t)
  end.

Definition start (name : string) (callback : JsVal) (large : bool) : Trace :=
  mkTrace (fst (SketchRNN_new name callback large))
          (snd (SketchRNN_new name callback large))
          false.

Definition session (name : string) (callback : JsVal) (large : bool)
  (ops : list Op) : Trace :=
  fold_left perform ops (start name callback large).

Definition is_update (c : ModelCall) : bool :=
  match c with CallUpdate _ _ => true | _ => false end.
Definition is_getPDF (c : ModelCall) : bool :=
  match c with CallGetPDF _ _ => true | _ => false end.
Definition is_sample (c : ModelCall) : bool :=
  match c with CallSample _ => true | _ => false end.
Definition is_updateStrokes (c : ModelCall) : bool :=
  match c with CallUpdateStrokes _ _ => true | _ => false end.

Definition count (p : ModelCall -> bool) (l : list ModelCall) : nat :=
  List.length (filter p l).

(** The three components of [resolve_arguments]. *)
Definition options_of (a1 a2 a3 : JsVal) : JsVal :=
  fst (fst (resolve_arguments a1 a2 a3)).
Definition seedStrokes_of (a1 a2 a3 : JsVal) : JsVal :=
  snd (fst (resolve_arguments a1 a2 a3)).
Definition callback_of (a1 a2 a3 : JsVal) : JsVal :=
  snd (resolve_arguments a1 a2 a3).

(** The value of [o.k] where the read cannot throw. *)
Definition field (o : JsVal) (k : string) : JsVal :=
  match getProp o k with
  | inr v => v
  | inl _ => JUndefined
  end.

(** The temperature and pixel factor a call resolves to. *)
Definition resolved_temperature (options : JsVal) (s : SketchRNN) : float :=
  numeric_option (field options "temperature") (temperature (defaults s)).
Definition resolved_pixelFactor (options : JsVal) (s : SketchRNN) : float :=
  numeric_option (field options "pixelFactor") (pixelFactor (defaults s)).

(** The same instance with another outcome of the load. *)
Definition with_ready (o : LoadOutcome) (s : SketchRNN) : SketchRNN :=
  mkSketchRNN (defaults s) (model s) (penState s) o (rnnState s).

(** The model object and the recurrent state once the first-use block
    has run, and the recurrent state once the seeding block has run. *)
Definition primed_model (f : float) (s : SketchRNN) : Model :=
  match rnnState s with
  | Some _ => model s
  | None => setPixelFactor f (model s)
  end.

Definition primed_state (s : SketchRNN) : LSTMState :=
  match rnnState s with
  | Some r => r
  | None => zeroState (model s)
  end.

Definition seeded_state (f : float) (strokes : list Vec) (s : SketchRNN)
  : LSTMState :=
  match strokes with
  | [] => primed_state s
  | _ :: _ => updateStrokes (primed_model f s) strokes (primed_state s)
  end.

(** The calls the first-use block and the seeding block make. *)
Definition lazy_init_calls (f : float) (s : SketchRNN) : list ModelCall :=
  match rnnState s with
  | Some _ => []
  | None => [CallZeroState; CallSetPixelFactor f]
  end.

Definition seed_calls (strokes : list Vec) (s : SketchRNN) : list ModelCall :=
  match strokes with
  | [] => []
  | _ :: _ => [CallUpdateStrokes strokes (primed_state s)]
  end.


End Session.

Arguments Rejected {A} e.
Arguments Pending {A}.

(* ===================================================================== *)
(** ** A small concrete model, for running the wrapper *)
(* ===================================================================== *)

Module Toy.

(** The toy model object: the URL it was built from, its pixel factor and
    the number of samples drawn so far. *)
Record ToyModel : Type := mkToy {
  url : string;
  scale : float;
  draws : nat
}.

(** The recurrent state is the list of vectors seen, newest first; the
    distribution is that list with the temperature; a sample reports the
    pixel factor, the temperature and the parity of the history. *)
Definition sketch : MagentaSketch := {|
  LSTMState := list Vec;
  PDF := list Vec * float;
  Model := ToyModel;
  newModel := fun u => mkToy u 1%float 0;
  initialize := fun m =>
    if String.eqb (url m) "" then LoadFailed (Reason (JStr "not found"))
    else Loaded;
  zeroInput := fun _ => [JNum 0; JNum 0; JNum 0; JNum 0; JNum 0];
  zeroState := fun _ => [];
  setPixelFactor := fun f m => mkToy (url m) f (draws m);
  updateStrokes := fun _ l r => fold_left (fun acc v => v :: acc) l r;
  update := fun _ v r => v :: r;
  getPDF := fun _ r t => (r, t);
  sample := fun m d =>
    ([JNum (scale m); JNum (snd d);
      flag (Nat.even (List.length (fst d))); JNum 0; JNum 0],
     mkToy (url m) (scale m) (S (draws m)))
|}.

Definition runtime : Runtime := {|
  StringToNumber := fun _ => PrimFloat.nan;
  ObjectToString := fun _ => "[object Object]"
|}.

Definition paths : ModelPaths := fun name => String.eqb name "cat".

(** A new session on the model ["cat"], and one whose load fails. *)
Definition fresh : @SketchRNN sketch :=
  fst (@SketchRNN_new sketch paths "cat" JUndefined true).
Definition broken : @SketchRNN sketch :=
  fst (@SketchRNN_new sketch paths "" JUndefined true).

Definition strokeA : JsVal :=
  JObj [("dx", JNum 1); ("dy", JNum 2); ("pen", JStr "down")].
Definition strokeB : JsVal :=
  JObj [("dx", JNum 3); ("dy", JNum 4)].

End Toy.

(* ===================================================================== *)
(** ** The constructor's URL and the factory *)
(* ===================================================================== *)

(** The URL the constructor hands to [new ms.SketchRNN] (index.js, 29-32):
<<
    let checkpointUrl = model;
    if (modelPaths.has(checkpointUrl)) {
      checkpointUrl = (large ? PATH_START_LARGE : PATH_START_SMALL)
                      + checkpointUrl + PATH_END;
    }
>> *)
Definition checkpointUrl {paths : ModelPaths} (name : string) (large : bool)
  : string :=
  if modelPaths_has name then
    ((if large then PATH_START_LARGE else PATH_START_SMALL)
       ++ name ++ PATH_END)%string
  else name.

(** The exported factory (index.js, 112):
<<
    const sketchRNN = (model, callback, large = true) =>
      new SketchRNN(model, callback, large);
>>
    The default applies to a missing ([undefined]) third argument only;
    the constructor then tests the value for truthiness. *)
Definition sketchRNN {ms : MagentaSketch} {paths : ModelPaths}
  (name : string) (callback large : JsVal) : SketchRNN * list ModelCall :=
  let large := match large with JUndefined => JBool true | v => v end in
  SketchRNN_new name callback (truthy large).

(** The number of [generate] calls that are fulfilled when the operations
    [ops] are performed from the session [t] on. *)
Fixpoint fulfilled_from {ms : MagentaSketch} {rt : Runtime}
  (t : Trace) (ops : list Op) : nat :=
  match ops with
  | [] => 0
  | o :: rest =>
      match o with
      | OpGenerate a1 a2 a3 =>
          if is_resolved (completion (generate a1 a2 a3 (now t)))
          then 1 else 0
      | OpReset => 0
      end
      + fulfilled_from (perform t o) rest
  end.

(** A kind of call that every fulfilled [generate] makes once and nothing
    else makes. *)
Definition once_per_stroke {ms : MagentaSketch} {rt : Runtime}
  (p : ModelCall -> bool) : Prop :=
  (forall (a1 a2 a3 : JsVal) (s : SketchRNN),
     count p (calls (generate a1 a2 a3 s))
     = if is_resolved (completion (generate a1 a2 a3 s)) then 1 else 0)
  /\ (forall s : SketchRNN, count p (calls (reset s)) = 0).

(* ===================================================================== *)
(** ** Properties of the stroke codec *)
(* ===================================================================== *)

Section Codec.

Lemma zero_is_not_one : JNum PrimFloat.zero <> JNum PrimFloat.one.
Proof.
  intro H.
  assert (E : strict_eq_num (JNum PrimFloat.zero) PrimFloat.one
              = strict_eq_num (JNum PrimFloat.one) PrimFloat.one)
    by (rewrite H; reflexivity).
  vm_compute in E. discriminate E.
Qed.

Lemma strict_eq_str_false (p : JsVal) (lit : string) :
  p <> JStr lit -> strict_eq_str p lit = false.
Proof.
  intros Hne. destruct p as [ | | b | n | s | l | o | i ]; simpl; try reflexivity.
  destruct (String.eqb_spec s lit) as [-> | _]; [ | reflexivity ].
  exfalso. apply Hne. reflexivity.
Qed.

(** Reading a property of anything but [undefined] and [null] succeeds. *)
Lemma getProp_total (s : JsVal) (k : string) :
  s <> JUndefined -> s <> JNull -> getProp s k = ok (field s k).
Proof.
  intros Hu Hn. unfold field.
  destruct s as [ | | b | n | t | l | o | i ]; try reflexivity;
    try (exfalso; apply Hu; reflexivity); try (exfalso; apply Hn; reflexivity).
  simpl. destruct (lookup k o); reflexivity.
Qed.

Lemma getProp_ok_not_nullish (s : JsVal) (k : string) (v : JsVal) :
  getProp s k = ok v -> s <> JUndefined /\ s <> JNull.
Proof.
  destruct s; simpl; intros H; split; intro E; try discriminate E;
    discriminate H.
Qed.

(** What the encoder returns on anything but [undefined] and [null]. *)
Lemma encode_fields (s : JsVal) :
  s <> JUndefined -> s <> JNull ->
  encode s = ok [field s "dx"; field s "dy";
                 flag (strict_eq_str (field s "pen") "down");
                 flag (strict_eq_str (field s "pen") "up");
                 flag (strict_eq_str (field s "pen") "end")].
Proof.
  intros Hu Hn. unfold encode.
  rewrite !(getProp_total _ Hu Hn). reflexivity.
Qed.

(** C6.  Decoding an internal vector [v] puts [v[0]] in [dx] and [v[1]] in
    [dy], and chooses [pen] by strict priority: ["down"] when [v[2] === 1],
    else ["up"] when [v[3] === 1], else ["end"] when [v[4] === 1]; when
    none of the three flags is [1] the result has no [pen] property.  In
    particular a vector with both down and up set decodes to ["down"]. *)
Theorem decode_pen_priority (v : Vec) :
  let s := decode v in
  let down := strict_eq_num (index v 2) PrimFloat.one in
  let up := strict_eq_num (index v 3) PrimFloat.one in
  let end_ := strict_eq_num (index v 4) PrimFloat.one in
  getProp s "dx" = ok (index v 0)
  /\ getProp s "dy" = ok (index v 1)
  /\ (down = true -> getProp s "pen" = ok (JStr "down"))
  /\ (down = false -> up = true -> getProp s "pen" = ok (JStr "up"))
  /\ (down = false -> up = false -> end_ = true ->
      getProp s "pen" = ok (JStr "end"))
  /\ (down = false -> up = false -> end_ = false -> hasProp s "pen" = false)
  /\ (forall x y e : JsVal,
        decode [x; y; JNum PrimFloat.one; JNum PrimFloat.one; e]
        = JObj [("dx", x); ("dy", y); ("pen", JStr "down")]).
Proof.
  cbv zeta. unfold decode.
  destruct (strict_eq_num (index v 2) PrimFloat.one) eqn:Ed;
    [ | destruct (strict_eq_num (index v 3) PrimFloat.one) eqn:Eu;
        [ | destruct (strict_eq_num (index v 4) PrimFloat.one) eqn:Ee ] ];
    repeat split; intros; try reflexivity; try discriminate.
Qed.

(** C7.  Encoding a public stroke yields [[dx, dy, down, up, end]]: [dx]
    and [dy] pass through unchanged, and the pen field maps to the flags
    [1,0,0] for ["down"], [0,1,0] for ["up"], [0,0,1] for ["end"] and
    [0,0,0] when it is absent. *)
Theorem encode_public_stroke (x y : float) :
  encode (js_of_stroke (mkStroke x y (Some PenDown)))
  = ok [JNum x; JNum y; JNum 1; JNum 0; JNum 0]
  /\ encode (js_of_stroke (mkStroke x y (Some PenUp)))
     = ok [JNum x; JNum y; JNum 0; JNum 1; JNum 0]
  /\ encode (js_of_stroke (mkStroke x y (Some PenEnd)))
     = ok [JNum x; JNum y; JNum 0; JNum 0; JNum 1]
  /\ encode (js_of_stroke (mkStroke x y None))
     = ok [JNum x; JNum y; JNum 0; JNum 0; JNum 0]
  /\ (forall s : PublicStroke,
        exists d u e : JsVal,
          encode (js_of_stroke s) = ok [JNum (dx s); JNum (dy s); d; u; e]).
Proof.
  repeat split; try reflexivity.
  intros [x' y' [[ | | ] | ]]; do 3 eexists; reflexivity.
Qed.

(** C8.  Round trip: for an internal vector whose three pen flags are each
    [0] or [1], with at most one of them [1], decoding and then encoding
    gives back the same vector: the same [dx] and [dy] and the same
    flags. *)
Theorem encode_decode_roundtrip (x y d u e : JsVal) :
  is_bit d -> is_bit u -> is_bit e -> at_most_one d u e ->
  encode (decode [x; y; d; u; e]) = ok [x; y; d; u; e].
Proof.
  intros [-> | ->] [-> | ->] [-> | ->] [Hd Hu];
    try reflexivity; exfalso.
  - destruct (Hu eq_refl). reflexivity.
  - destruct (Hd eq_refl) as [_ He]. apply He. reflexivity.
  - destruct (Hd eq_refl) as [Hu' _]. apply Hu'. reflexivity.
  - destruct (Hd eq_refl) as [Hu' _]. apply Hu'. reflexivity.
Qed.

(** C10.  A seed stroke whose [pen] property is anything but exactly
    ["down"], ["up"] or ["end"] (a misspelling, a number, nothing at all)
    is encoded without error, with the flag triple [0,0,0]. *)
Theorem encode_unknown_pen_is_draw (s p : JsVal) :
  getProp s "pen" = ok p ->
  p <> JStr "down" -> p <> JStr "up" -> p <> JStr "end" ->
  exists x y : JsVal,
    getProp s "dx" = ok x /\ getProp s "dy" = ok y
    /\ encode s = ok [x; y; JNum 0; JNum 0; JNum 0].
Proof.
  intros Hp Hd Hu He.
  destruct (getProp_ok_not_nullish _ _ Hp) as [Hnu Hnn].
  exists (field s "dx"), (field s "dy").
  rewrite (encode_fields Hnu Hnn), !(getProp_total _ Hnu Hnn).
  assert (Ep : field s "pen" = p).
  { rewrite (getProp_total _ Hnu Hnn) in Hp. injection Hp. auto. }
  rewrite Ep, (strict_eq_str_false Hd), (strict_eq_str_false Hu),
    (strict_eq_str_false He).
  repeat split; reflexivity.
Qed.

End Codec.

(* ===================================================================== *)
(** ** Properties of the session *)
(* ===================================================================== *)

Section SessionProperties.

Context {ms : MagentaSketch} {rt : Runtime} {paths : ModelPaths}.

(** Unfolds the monad and the field accessors. *)
Ltac run_session :=
  unfold generateInternal, lazy_init, seed, reset, bindA, liftE, ret,
    this_defaults, this_penState, this_rnnState, set_penState, set_rnnState,
    rnnState_arg, await_ready, model_zeroInput, model_zeroState,
    model_setPixelFactor, model_updateStrokes, model_update, model_getPDF,
    model_sample, with_model, with_penState, with_rnnState, callCallback;
  simpl.

(** The options a [generate] call resolves to are never [undefined] or
    [null], so reading a property of them cannot throw. *)
Lemma options_not_nullish (a1 a2 a3 : JsVal) :
  options_of a1 a2 a3 <> JUndefined /\ options_of a1 a2 a3 <> JNull.
Proof.
  unfold options_of, resolve_arguments, js_or.
  destruct (is_function a1); [ simpl; split; discriminate | ].
  destruct (is_array a1); [ simpl; split; discriminate | ].
  destruct (is_function a2); simpl;
    (destruct a1; simpl; try (split; discriminate);
     match goal with
     | |- context [if ?b then _ else _] => destruct b; split; discriminate
     end).
Qed.

(** [generate] is the encoder mapped over the seed array, then
    [generateInternal]. *)
Lemma generate_unfold (a1 a2 a3 : JsVal) (s : SketchRNN) :
  generate a1 a2 a3 s =
  match array_map encode (seedStrokes_of a1 a2 a3) with
  | inl e => mkRun (Rejected e) s []
  | inr strokes => generateInternal (options_of a1 a2 a3) strokes s
  end.
Proof.
  unfold generate, options_of, seedStrokes_of.
  destruct (resolve_arguments a1 a2 a3) as [[o sd] cb]. simpl.
  unfold bindA, liftE, callCallback.
  destruct (array_map encode sd) as [e | strokes]; simpl; [ reflexivity | ].
  destruct (generateInternal o strokes s) as [c s' cs]. reflexivity.
Qed.

(** The run of [generateInternal] on a loaded model. *)
Lemma generateInternal_loaded (options : JsVal) (strokes : list Vec)
  (s : SketchRNN) :
  options <> JUndefined -> options <> JNull -> ready s = Loaded ->
  let t := resolved_temperature options s in
  let f := resolved_pixelFactor options s in
  let m := primed_model f s in
  let r1 := seeded_state f strokes s in
  let r2 := update m (penState s) r1 in
  let pdf := getPDF m r2 t in
  generateInternal options strokes s =
  mkRun (Resolved (decode (fst (sample m pdf))))
        (mkSketchRNN (defaults s) (snd (sample m pdf)) (fst (sample m pdf))
                     (ready s) (Some r2))
        (lazy_init_calls f s ++ seed_calls strokes s
         ++ [CallUpdate (penState s) r1; CallGetPDF r2 t; CallSample pdf]).
Proof.
  intros Hu Hn Hr. cbv zeta.
  unfold resolved_temperature, resolved_pixelFactor, primed_model,
    seeded_state, primed_state, lazy_init_calls, seed_calls.
  destruct s as [d m p rd rs]. simpl in *. subst rd.
  unfold generateInternal. rewrite !(getProp_total _ Hu Hn).
  run_session.
  destruct rs as [r | ]; destruct strokes as [ | v l]; reflexivity.
Qed.

(** A call on a model whose load failed or never ends changes nothing. *)
Lemma generateInternal_not_loaded (options : JsVal) (strokes : list Vec)
  (s : SketchRNN) :
  options <> JUndefined -> options <> JNull ->
  generateInternal options strokes s =
  match ready s with
  | Loaded => generateInternal options strokes s
  | LoadFailed e => mkRun (Rejected e) s []
  | LoadHangs => mkRun Pending s []
  end.
Proof.
  intros Hu Hn. destruct (ready s) eqn:Hr; [ reflexivity | | ];
    unfold generateInternal; rewrite !(getProp_total _ Hu Hn);
    unfold bindA at 1; unfold liftE at 1; simpl;
    unfold bindA at 1; unfold this_defaults at 1; simpl;
    unfold bindA at 1; unfold liftE at 1; simpl;
    unfold bindA at 1; unfold this_defaults at 1; simpl;
    unfold bindA at 1; unfold await_ready at 1; rewrite Hr; reflexivity.
Qed.


Lemma count_app (p : ModelCall -> bool) (l1 l2 : list ModelCall) :
  count p (l1 ++ l2) = count p l1 + count p l2.
Proof.
  unfold count. induction l1 as [ | c l1 IH]; simpl; [ reflexivity | ].
  destruct (p c); simpl; rewrite IH; reflexivity.
Qed.

(** The first-use and seeding blocks make no update, distribution or
    sampling call. *)
Lemma count_prefix (p : ModelCall -> bool) (f : float) (strokes : list Vec)
  (s : SketchRNN) :
  p CallZeroState = false -> (forall x, p (CallSetPixelFactor x) = false) ->
  (forall l r, p (CallUpdateStrokes l r) = false) ->
  count p (lazy_init_calls f s ++ seed_calls strokes s) = 0.
Proof.
  intros Hz Hs Hu. rewrite count_app.
  unfold lazy_init_calls, seed_calls, count.
  destruct (rnnState s); destruct strokes; simpl;
    rewrite ?Hz, ?Hs, ?Hu; reflexivity.
Qed.

Lemma count_step (p : ModelCall -> bool) (f : float) (strokes : list Vec)
  (s : SketchRNN) (l : list ModelCall) :
  p CallZeroState = false -> (forall x, p (CallSetPixelFactor x) = false) ->
  (forall v r, p (CallUpdateStrokes v r) = false) ->
  count p (lazy_init_calls f s ++ seed_calls strokes s ++ l) = count p l.
Proof.
  intros Hz Hs Hu. rewrite app_assoc, count_app, count_prefix; auto.
Qed.





(** The run of [generate] on a loaded model, when the seed strokes
    encode. *)
Lemma generate_loaded (a1 a2 a3 : JsVal) (s : SketchRNN)
  (strokes : list Vec) :
  array_map encode (seedStrokes_of a1 a2 a3) = ok strokes ->
  ready s = Loaded ->
  let options := options_of a1 a2 a3 in
  let t := resolved_temperature options s in
  let f := resolved_pixelFactor options s in
  let m := primed_model f s in
  let r1 := seeded_state f strokes s in
  let r2 := update m (penState s) r1 in
  let pdf := getPDF m r2 t in
  generate a1 a2 a3 s =
  mkRun (Resolved (decode (fst (sample m pdf))))
        (mkSketchRNN (defaults s) (snd (sample m pdf)) (fst (sample m pdf))
                     (ready s) (Some r2))
        (lazy_init_calls f s ++ seed_calls strokes s
         ++ [CallUpdate (penState s) r1; CallGetPDF r2 t; CallSample pdf]).
Proof.
  intros Hs Hr. cbv zeta.
  destruct (options_not_nullish a1 a2 a3) as [Hu Hn].
  rewrite generate_unfold, Hs.
  unfold ok. apply (generateInternal_loaded strokes s Hu Hn Hr).
Qed.




(** The run of [reset]. *)
Lemma reset_run (s : SketchRNN) :
  reset s =
  mkRun (Resolved tt)
        (mkSketchRNN (defaults s) (model s) (zeroInput (model s)) (ready s)
           match rnnState s with
           | Some _ => Some (zeroState (model s))
           | None => None
           end)
        (CallZeroInput
         :: match rnnState s with
            | Some _ => [CallZeroState]
            | None => []
            end).
Proof.
  destruct s as [d m p rd rs]. run_session. destruct rs; reflexivity.
Qed.

(** C4.  [reset()] always returns normally, whatever the outcome of the
    load (it does not wait for it); it sets [penState] to the model's zero
    input, replaces [rnnState] by the model's zero state when there is one
    and leaves it absent otherwise, leaves everything else alone, and doing
    it twice is the same as doing it once.  On a newly built session it
    returns normally and [rnnState] stays absent. *)
Theorem reset_zeroes_state (s : SketchRNN) :
  completion (reset s) = Resolved tt
  /\ penState (after (reset s)) = zeroInput (model s)
  /\ rnnState (after (reset s))
     = match rnnState s with
       | Some _ => Some (zeroState (model s))
       | None => None
       end
  /\ model (after (reset s)) = model s
  /\ defaults (after (reset s)) = defaults s
  /\ ready (after (reset s)) = ready s
  /\ after (reset (after (reset s))) = after (reset s)
  /\ (forall o : LoadOutcome,
        completion (reset (with_ready o s)) = Resolved tt
        /\ after (reset (with_ready o s)) = with_ready o (after (reset s))
        /\ calls (reset (with_ready o s)) = calls (reset s))
  /\ (forall (name : string) (callback : JsVal) (large : bool),
        let s0 := fst (SketchRNN_new name callback large) in
        completion (reset s0) = Resolved tt
        /\ rnnState (after (reset s0)) = None
        /\ after (reset s0) = s0).
Proof.
  destruct s as [d m p rd rs].
  repeat split; run_session; try (destruct rs; reflexivity);
    try (destruct rs; simpl; reflexivity).
Qed.


(** [generateInternal] never hands the model an undefined recurrent
    state: when it is rejected, it is with what the load was rejected
    with. *)
Lemma rnnState_arg_defined (options : JsVal) (strokes : list Vec)
  (s : SketchRNN) (e : JsError) :
  options <> JUndefined -> options <> JNull ->
  completion (generateInternal options strokes s) = Rejected e ->
  ready s = LoadFailed e.
Proof.
  intros Hu Hn.
  rewrite (generateInternal_not_loaded strokes s Hu Hn).
  destruct (ready s) eqn:Hr; try discriminate.
  - rewrite (generateInternal_loaded strokes s Hu Hn Hr). discriminate.
  - simpl. intros H. injection H as ->. reflexivity.
Qed.

(** A [generate] call either changes nothing, makes no call on the model
    and is not fulfilled, or runs on a loaded model with encoded seeds. *)
Lemma generate_cases (a1 a2 a3 : JsVal) (s : SketchRNN) :
  (is_resolved (completion (generate a1 a2 a3 s)) = false
   /\ after (generate a1 a2 a3 s) = s
   /\ calls (generate a1 a2 a3 s) = [])
  \/ (is_resolved (completion (generate a1 a2 a3 s)) = true
      /\ ready s = Loaded
      /\ exists strokes : list Vec,
           array_map encode (seedStrokes_of a1 a2 a3) = ok strokes).
Proof.
  destruct (options_not_nullish a1 a2 a3) as [Hu Hn].
  rewrite generate_unfold.
  destruct (array_map encode (seedStrokes_of a1 a2 a3)) as [e | strokes] eqn:Hs;
    [ left; repeat split | ].
  rewrite (generateInternal_not_loaded strokes s Hu Hn).
  destruct (ready s) eqn:Hr; [ right | left; repeat split | left; repeat split ].
  rewrite (generateInternal_loaded strokes s Hu Hn Hr). simpl.
  repeat split. exists strokes. reflexivity.
Qed.








(** [generateInternal] depends on its options only through the resolved
    temperature and, while the recurrent state is absent, the resolved
    pixel factor. *)
Lemma generateInternal_ext (o1 o2 : JsVal) (strokes : list Vec)
  (s : SketchRNN) :
  o1 <> JUndefined -> o1 <> JNull -> o2 <> JUndefined -> o2 <> JNull ->
  resolved_temperature o1 s = resolved_temperature o2 s ->
  (rnnState s = None -> resolved_pixelFactor o1 s = resolved_pixelFactor o2 s) ->
  generateInternal o1 strokes s = generateInternal o2 strokes s.
Proof.
  intros Hu1 Hn1 Hu2 Hn2 Ht Hf.
  rewrite (generateInternal_not_loaded strokes s Hu1 Hn1).
  rewrite (generateInternal_not_loaded strokes s Hu2 Hn2).
  destruct (ready s) eqn:Hr; try reflexivity.
  rewrite (generateInternal_loaded strokes s Hu1 Hn1 Hr).
  rewrite (generateInternal_loaded strokes s Hu2 Hn2 Hr).
  rewrite Ht.
  destruct (rnnState s) as [r | ] eqn:E.
  - unfold primed_model, seeded_state, primed_model, lazy_init_calls.
    rewrite E. reflexivity.
  - rewrite (Hf eq_refl). reflexivity.
Qed.




(** What [+v || dflt] is on the falsy numbers. *)
Lemma numeric_option_falsy (dflt : float) :
  numeric_option (JNum 0) dflt = dflt
  /\ numeric_option (JNum (-0)) dflt = dflt
  /\ numeric_option (JNum PrimFloat.nan) dflt = dflt
  /\ numeric_option JUndefined dflt = dflt
  /\ numeric_option JNull dflt = dflt.
Proof. repeat split; reflexivity. Qed.



End SessionProperties.

(* ===================================================================== *)
(** ** The theorems at work on the toy model *)
(* ===================================================================== *)

Section Instances.

Import Toy.

(** A few runs. *)
Example generate_on_failed_load :
  generate (rt := runtime) JUndefined JUndefined JUndefined broken
  = mkRun (Rejected (Reason (JStr "not found"))) broken [].
Proof. reflexivity. Qed.

Example reset_on_failed_load :
  reset broken = mkRun (Resolved tt) broken [CallZeroInput].
Proof. reflexivity. Qed.

Example null_seed_is_refused :
  generate (rt := runtime) (JArr [strokeA; JNull]) JUndefined JUndefined fresh
  = mkRun (Rejected (TypeError "Cannot read properties of null")) fresh [].
Proof. reflexivity. Qed.

Example seeds_in_second_position :
  calls (generate (rt := runtime) (JObj [("temperature", JNum 0.25)])
           (JArr [strokeB]) JUndefined fresh)
  = [CallZeroState; CallSetPixelFactor 3;
     @CallUpdateStrokes sketch [[JNum 3; JNum 4; JNum 0; JNum 0; JNum 0]]
       (nil : list Vec);
     @CallUpdate sketch [JNum 0; JNum 0; JNum 0; JNum 0; JNum 0]
       ([[JNum 3; JNum 4; JNum 0; JNum 0; JNum 0]] : list Vec);
     @CallGetPDF sketch
       ([[JNum 0; JNum 0; JNum 0; JNum 0; JNum 0];
         [JNum 3; JNum 4; JNum 0; JNum 0; JNum 0]] : list Vec) 0.25;
     @CallSample sketch
       (([[JNum 0; JNum 0; JNum 0; JNum 0; JNum 0];
          [JNum 3; JNum 4; JNum 0; JNum 0; JNum 0]] : list Vec), 0.25%float)].
Proof. reflexivity. Qed.

Example two_flags_decode_down :
  decode [JNum 5; JNum 6; JNum 1; JNum 1; JNum 0]
  = JObj [("dx", JNum 5); ("dy", JNum 6); ("pen", JStr "down")].
Proof. reflexivity. Qed.

(** The round trip on the vector [[1.5, -2, 0, 1, 0]] (pen up). *)
Lemma encode_decode_roundtrip_up :
  is_bit (JNum 0) /\ is_bit (JNum 1)
  /\ at_most_one (JNum 0) (JNum 1) (JNum 0)
  /\ encode (decode [JNum 1.5; JNum (-2); JNum 0; JNum 1; JNum 0])
     = ok [JNum 1.5; JNum (-2); JNum 0; JNum 1; JNum 0].
Proof.
  assert (H0 : is_bit (JNum 0)) by (left; reflexivity).
  assert (H1 : is_bit (JNum 1)) by (right; reflexivity).
  assert (Hm : at_most_one (JNum 0) (JNum 1) (JNum 0)).
  { split.
    - intros E. destruct (zero_is_not_one E).
    - intros _. exact zero_is_not_one. }
  split; [ exact H0 | ]. split; [ exact H1 | ]. split; [ exact Hm | ].
  exact (encode_decode_roundtrip (JNum 1.5) (JNum (-2)) H0 H1 H0 Hm).
Defined.

(** A misspelt pen value is encoded as "draw". *)
Lemma encode_misspelt_pen :
  getProp (JObj [("dx", JNum 1); ("dy", JNum 2); ("pen", JStr "dwon")]) "pen"
  = ok (JStr "dwon")
  /\ exists x y : JsVal,
       getProp (JObj [("dx", JNum 1); ("dy", JNum 2); ("pen", JStr "dwon")]) "dx"
       = ok x
       /\ getProp (JObj [("dx", JNum 1); ("dy", JNum 2); ("pen", JStr "dwon")]) "dy"
          = ok y
       /\ encode (JObj [("dx", JNum 1); ("dy", JNum 2); ("pen", JStr "dwon")])
          = ok [x; y; JNum 0; JNum 0; JNum 0].
Proof.
  split; [ reflexivity | ].
  apply (@encode_unknown_pen_is_draw
           (JObj [("dx", JNum 1); ("dy", JNum 2); ("pen", JStr "dwon")])
           (JStr "dwon"));
    [ reflexivity | discriminate | discriminate | discriminate ].
Defined.




(** A session in which the first [generate] is fulfilled. *)
Example first_generate_creates_state :
  generated (session (ms := sketch) (rt := runtime) (paths := paths) "cat"
               JUndefined true
               [OpGenerate JUndefined JUndefined JUndefined]) = true
  /\ rnnState (now (session (ms := sketch) (rt := runtime) (paths := paths)
                      "cat" JUndefined true
                      [OpGenerate JUndefined JUndefined JUndefined]))
     = Some ([[JNum 0; JNum 0; JNum 0; JNum 0; JNum 0]] : list Vec)
  /\ history (session (ms := sketch) (rt := runtime) (paths := paths) "cat"
                JUndefined true
                [OpGenerate (JObj [("pixelFactor", JNum 5)]) JUndefined
                   JUndefined;
                 OpReset;
                 OpGenerate (JObj [("pixelFactor", JNum 9)]) JUndefined
                   JUndefined])
     = [CallZeroInput; CallInitialize;
        CallZeroState; CallSetPixelFactor 5;
        @CallUpdate sketch [JNum 0; JNum 0; JNum 0; JNum 0; JNum 0]
          (nil : list Vec);
        @CallGetPDF sketch
          ([[JNum 0; JNum 0; JNum 0; JNum 0; JNum 0]] : list Vec) 0.65;
        @CallSample sketch
          (([[JNum 0; JNum 0; JNum 0; JNum 0; JNum 0]] : list Vec),
           0.65%float);
        CallZeroInput; CallZeroState;
        @CallUpdate sketch [JNum 0; JNum 0; JNum 0; JNum 0; JNum 0]
          (nil : list Vec);
        @CallGetPDF sketch
          ([[JNum 0; JNum 0; JNum 0; JNum 0; JNum 0]] : list Vec) 0.65;
        @CallSample sketch
          (([[JNum 0; JNum 0; JNum 0; JNum 0; JNum 0]] : list Vec),
           0.65%float)].
Proof. repeat split; reflexivity. Qed.



End Instances.

(* ===================================================================== *)
(** ** Further properties of the stroke codec *)
(* ===================================================================== *)

Section CodecShape.

(** The encoder throws exactly on [undefined] and [null]. *)
Lemma encode_ok_not_nullish (s : JsVal) (v : Vec) :
  encode s = ok v -> s <> JUndefined /\ s <> JNull.
Proof.
  destruct s; intros H; split; intro E; try discriminate E;
    discriminate H.
Qed.

Lemma flag_is_bit (c : bool) : is_bit (flag c).
Proof. destruct c; [ right | left ]; reflexivity. Qed.

Lemma flag_one (c : bool) : flag c = JNum PrimFloat.one -> c = true.
Proof.
  destruct c; [ reflexivity | ]. intros H.
  destruct (zero_is_not_one H).
Qed.

(** A value is strictly equal to at most one of two different string
    literals. *)
Lemma strict_eq_str_exclusive (p : JsVal) (a b : string) :
  strict_eq_str p a = true -> a <> b -> strict_eq_str p b = false.
Proof.
  destruct p; simpl; try discriminate.
  intros Ha Hab. apply String.eqb_eq in Ha. subst s.
  apply String.eqb_neq. exact Hab.
Qed.

(** X1.  The other round trip: encoding the object of a public stroke and
    decoding the vector gives the object back, for every [dx], [dy] and
    every pen value, absent included. *)
Theorem decode_encode_public_stroke (s : PublicStroke) :
  bindE (encode (js_of_stroke s)) (fun v => ok (decode v))
  = ok (js_of_stroke s).
Proof.
  destruct s as [x y [[ | | ] | ]]; reflexivity.
Qed.

(** X2.  Whatever the encoder accepts, it returns a vector of exactly five
    elements: the stroke's [dx] and [dy] as they are (possibly
    [undefined]) and three flags that are each [0] or [1], at most one of
    them [1]. *)
Theorem encode_shape (s : JsVal) (v : Vec) :
  encode s = ok v ->
  exists d u e : JsVal,
    v = [field s "dx"; field s "dy"; d; u; e]
    /\ is_bit d /\ is_bit u /\ is_bit e
    /\ at_most_one d u e.
Proof.
  intros H. destruct (encode_ok_not_nullish _ H) as [Hu Hn].
  rewrite (encode_fields Hu Hn) in H. injection H as <-.
  do 3 eexists. split; [ reflexivity | ].
  split; [ apply flag_is_bit | ]. split; [ apply flag_is_bit | ].
  split; [ apply flag_is_bit | ].
  split.
  - intros Hd. apply flag_one in Hd.
    rewrite (@strict_eq_str_exclusive _ _ "up" Hd)
      by discriminate.
    rewrite (@strict_eq_str_exclusive _ _ "end" Hd)
      by discriminate.
    split; exact zero_is_not_one.
  - intros Hup. apply flag_one in Hup.
    rewrite (@strict_eq_str_exclusive _ _ "end" Hup)
      by discriminate.
    exact zero_is_not_one.
Qed.

(** X3.  Decoding normalises: for every vector, of any length and with any
    content, the decoded object encodes without error and decodes again to
    the same object; its [pen] is ["down"], ["up"], ["end"] or absent. *)
Theorem decode_normalises (v : Vec) :
  bindE (encode (decode v)) (fun v' => ok (decode v')) = ok (decode v)
  /\ (field (decode v) "pen" = JStr "down"
      \/ field (decode v) "pen" = JStr "up"
      \/ field (decode v) "pen" = JStr "end"
      \/ hasProp (decode v) "pen" = false).
Proof.
  unfold decode.
  destruct (strict_eq_num (index v 2) PrimFloat.one);
    [ | destruct (strict_eq_num (index v 3) PrimFloat.one);
        [ | destruct (strict_eq_num (index v 4) PrimFloat.one) ] ];
    (split; [ reflexivity | ]); auto.
Qed.

End CodecShape.

Section CodecShapeInstances.

(** A stroke with a misspelt pen and no [dy] is still encoded to a
    well-formed set of flags. *)
Lemma encode_shape_partial_stroke :
  encode (JObj [("dx", JNum 7); ("pen", JStr "Up")])
  = ok [JNum 7; JUndefined; JNum 0; JNum 0; JNum 0]
  /\ exists d u e : JsVal,
       [JNum 7; JUndefined; JNum 0; JNum 0; JNum 0]
       = [field (JObj [("dx", JNum 7); ("pen", JStr "Up")]) "dx";
          field (JObj [("dx", JNum 7); ("pen", JStr "Up")]) "dy"; d; u; e]
       /\ is_bit d /\ is_bit u /\ is_bit e /\ at_most_one d u e.
Proof.
  split; [ reflexivity | ].
  exact (@encode_shape (JObj [("dx", JNum 7); ("pen", JStr "Up")])
           [JNum 7; JUndefined; JNum 0; JNum 0; JNum 0] eq_refl).
Defined.

End CodecShapeInstances.

(* ===================================================================== *)
(** ** Further properties of [generate] *)
(* ===================================================================== *)

Section GenerateOutcomes.

Context {ms : MagentaSketch} {rt : Runtime}.

(** The seed argument does not depend on an options argument that is
    neither a function nor an array. *)
Lemma seedStrokes_of_options (o a2 a3 : JsVal) :
  is_function o = false -> is_array o = false ->
  seedStrokes_of o a2 a3
  = if is_function a2 then JArr [] else js_or a2 (JArr []).
Proof.
  intros Hf Ha. unfold seedStrokes_of, resolve_arguments.
  rewrite Hf, Ha. destruct (is_function a2); reflexivity.
Qed.

Lemma options_of_options (o a2 a3 : JsVal) :
  is_function o = false -> is_array o = false ->
  options_of o a2 a3 = js_or o (JObj []).
Proof.
  intros Hf Ha. unfold options_of, resolve_arguments.
  rewrite Hf, Ha. destruct (is_function a2); reflexivity.
Qed.

(** A property that is not there reads as [undefined], also through the
    replacement of falsy options by the empty object. *)
Lemma field_absent (o : JsVal) (k : string) :
  hasProp o k = false -> field (js_or o (JObj [])) k = JUndefined.
Proof.
  unfold js_or, hasProp, field. destruct o; simpl; try reflexivity.
  - destruct b; reflexivity.
  - destruct (truthy_num n); reflexivity.
  - destruct (negb (s =? "")%string); reflexivity.
  - destruct (lookup k props); [ discriminate | reflexivity ].
Qed.

Lemma js_or_not_nullish (o : JsVal) :
  js_or o (JObj []) <> JUndefined /\ js_or o (JObj []) <> JNull.
Proof.
  unfold js_or. destruct o; simpl; try (split; discriminate);
    match goal with
    | |- context [if ?b then _ else _] => destruct b; split; discriminate
    end.
Qed.


(** X5.  The overloads of [generate].  A function in first position makes
    the call the plain [generate()], whatever follows; an array in first
    position is the seed array, with empty options; a function in second
    position means no seeds; and an options argument without
    [temperature] and [pixelFactor] properties, be it [null], a number, a
    string or an object with other keys, does what a missing one does. *)
Theorem generate_overloads (s : SketchRNN) :
  (forall (f : nat) (a2 a3 : JsVal),
     generate (JFun f) a2 a3 s = generate JUndefined JUndefined JUndefined s)
  /\ (forall (l : list JsVal) (a2 a3 : JsVal),
        generate (JArr l) a2 a3 s = generate JUndefined (JArr l) JUndefined s)
  /\ (forall (o : JsVal) (f : nat) (a3 : JsVal),
        is_function o = false -> is_array o = false ->
        generate o (JFun f) a3 s = generate o JUndefined JUndefined s)
  /\ (forall o a2 a3 : JsVal,
        is_function o = false -> is_array o = false ->
        hasProp o "temperature" = false -> hasProp o "pixelFactor" = false ->
        generate o a2 a3 s = generate JUndefined a2 a3 s).
Proof.
  split; [ | split; [ | split ] ].
  - intros f a2 a3. rewrite !generate_unfold. reflexivity.
  - intros l a2 a3. rewrite !generate_unfold. reflexivity.
  - intros o f a3 Hf Ha. rewrite !generate_unfold.
    rewrite !(@seedStrokes_of_options o _ _ Hf Ha).
    rewrite !(@options_of_options o _ _ Hf Ha). reflexivity.
  - intros o a2 a3 Hf Ha Ht Hp. rewrite !generate_unfold.
    rewrite (@seedStrokes_of_options o a2 a3 Hf Ha).
    rewrite (@options_of_options o a2 a3 Hf Ha).
    rewrite (@seedStrokes_of_options JUndefined a2 a3 eq_refl eq_refl).
    rewrite (@options_of_options JUndefined a2 a3 eq_refl eq_refl).
    destruct (array_map encode
                (if is_function a2 then JArr [] else js_or a2 (JArr [])));
      [ reflexivity | ].
    destruct (js_or_not_nullish o) as [Hu Hn].
    apply generateInternal_ext; try exact Hu; try exact Hn;
      try discriminate.
    + unfold resolved_temperature. rewrite (@field_absent o _ Ht). reflexivity.
    + intros _. unfold resolved_pixelFactor.
      rewrite (@field_absent o _ Hp). reflexivity.
Qed.

(** X6.  A seed argument that is not an array is refused: with options in
    first position and a truthy second argument that is neither a function
    nor an array and has no [map] of its own (a single stroke object, a
    string, a number), the call is rejected with a [TypeError], the
    instance is untouched and the model is not called. *)
Theorem non_array_seed_rejected (o sd a3 : JsVal) (s : SketchRNN) :
  is_function o = false -> is_array o = false ->
  is_function sd = false -> is_array sd = false ->
  truthy sd = true -> hasProp sd "map" = false ->
  generate o sd a3 s
  = mkRun (Rejected (TypeError "seedStrokes.map is not a function")) s [].
Proof.
  intros Hfo Hao Hfs Has Ht _.
  rewrite generate_unfold, (@seedStrokes_of_options o sd a3 Hfo Hao), Hfs.
  unfold js_or. rewrite Ht.
  destruct sd; try discriminate; reflexivity.
Qed.


(** X8.  [updateStrokes] is called at most once per [generate], and not at
    all when the seed array is empty: an empty seed array is the same as
    no seed argument. *)
Theorem empty_seeds_are_no_seeds (a1 a2 a3 : JsVal) (s : SketchRNN) :
  count is_updateStrokes (calls (generate a1 a2 a3 s)) <= 1
  /\ (seedStrokes_of a1 a2 a3 = JArr [] ->
      count is_updateStrokes (calls (generate a1 a2 a3 s)) = 0)
  /\ generate a1 (JArr []) a3 s = generate a1 JUndefined a3 s.
Proof.
  destruct (options_not_nullish a1 a2 a3) as [Hu Hn].
  assert (Hcount : forall strokes,
            array_map encode (seedStrokes_of a1 a2 a3) = ok strokes ->
            ready s = Loaded ->
            count is_updateStrokes (calls (generate a1 a2 a3 s))
            = match strokes with [] => 0 | _ :: _ => 1 end).
  { intros strokes Hs Hr. rewrite (generate_loaded a1 a2 a3 s Hs Hr).
    cbn [calls]. rewrite !count_app. unfold lazy_init_calls, seed_calls.
    destruct (rnnState s); destruct strokes; reflexivity. }
  split; [ | split ].
  - destruct (generate_cases a1 a2 a3 s)
      as [(_ & _ & ->) | (_ & Hr & strokes & Hs)];
      [ unfold count; simpl; lia | ].
    rewrite (Hcount strokes Hs Hr). destruct strokes; lia.
  - intros Hsd.
    destruct (generate_cases a1 a2 a3 s)
      as [(_ & _ & ->) | (_ & Hr & strokes & Hs)]; [ reflexivity | ].
    rewrite (Hcount strokes Hs Hr).
    rewrite Hsd in Hs. simpl in Hs. injection Hs as <-. reflexivity.
  - rewrite !generate_unfold.
    unfold seedStrokes_of, options_of, resolve_arguments.
    destruct (is_function a1); [ reflexivity | ].
    destruct (is_array a1); reflexivity.
Qed.

End GenerateOutcomes.

(* ===================================================================== *)
(** ** Further properties of a session *)
(* ===================================================================== *)

Section SessionLife.

Context {ms : MagentaSketch} {rt : Runtime} {paths : ModelPaths}.


(** X10.  [reset()] forgets the drawing.  Two instances that agree on the
    model object, the defaults and the load, and that both have or both
    lack a recurrent state, are the same instance after [reset()],
    whatever their pen and recurrent states were; every later [generate]
    therefore does the same on both.  On a loaded instance that has
    generated before, the first [generate] after [reset()] advances the
    model from its zero state by its zero input and does not set the pixel
    factor again. *)
Theorem reset_forgets_history (s1 s2 : SketchRNN) :
  model s1 = model s2 -> defaults s1 = defaults s2 -> ready s1 = ready s2 ->
  (rnnState s1 = None <-> rnnState s2 = None) ->
  after (reset s1) = after (reset s2)
  /\ (forall a1 a2 a3 : JsVal,
        generate a1 a2 a3 (after (reset s1))
        = generate a1 a2 a3 (after (reset s2)))
  /\ (rnnState s1 <> None -> ready s1 = Loaded ->
      let m := model s1 in
      let t := temperature (defaults s1) in
      let r := update m (zeroInput m) (zeroState m) in
      calls (generate JUndefined JUndefined JUndefined (after (reset s1)))
      = [CallUpdate (zeroInput m) (zeroState m);
         CallGetPDF r t;
         CallSample (getPDF m r t)]).
Proof.
  intros Hm Hd Hr Hn.
  assert (E : after (reset s1) = after (reset s2)).
  { rewrite !reset_run. cbn [after]. rewrite Hm, Hd, Hr.
    destruct (rnnState s1) eqn:E1; destruct (rnnState s2) eqn:E2;
      try reflexivity.
    - destruct Hn as [_ Hn]. discriminate (Hn eq_refl).
    - destruct Hn as [Hn _]. discriminate (Hn eq_refl). }
  split; [ exact E | ]. split; [ intros; rewrite E; reflexivity | ].
  intros Hsome Hl. cbv zeta.
  rewrite reset_run. cbn [after].
  destruct (rnnState s1) as [r | ] eqn:E1; [ | contradiction ].
  match goal with
  | |- calls (generate _ _ _ ?s') = _ =>
      rewrite (@generate_loaded ms rt JUndefined JUndefined JUndefined s' []
                 eq_refl Hl)
  end.
  reflexivity.
Qed.

Lemma list_ascii_append (a b : string) :
  list_ascii_of_string (a ++ b)
  = (list_ascii_of_string a ++ list_ascii_of_string b)%list.
Proof.
  induction a as [ | c a IH]; simpl; [ reflexivity | ].
  rewrite IH. reflexivity.
Qed.

Lemma list_ascii_inj (a b : string) :
  list_ascii_of_string a = list_ascii_of_string b -> a = b.
Proof.
  intros H. rewrite <- (string_of_list_ascii_of_string a),
    <- (string_of_list_ascii_of_string b), H. reflexivity.
Qed.

(** A name between a fixed prefix and a fixed suffix can be read back. *)
Lemma append_cancel (p e a b : string) :
  (p ++ a ++ e)%string = (p ++ b ++ e)%string -> a = b.
Proof.
  intros H. apply (f_equal list_ascii_of_string) in H.
  rewrite !list_ascii_append in H.
  apply app_inv_head, app_inv_tail in H. apply list_ascii_inj. exact H.
Qed.

(** The two base paths part ways after [".../sketchRNN/"]. *)
Lemma bases_differ (a b : string) :
  (PATH_START_LARGE ++ a)%string <> (PATH_START_SMALL ++ b)%string.
Proof.
  intros H.
  apply (f_equal (String.get 58)) in H.
  unfold PATH_START_LARGE, PATH_START_SMALL in H. simpl in H.
  discriminate H.
Qed.

(** X11.  The checkpoint URL.  The constructor builds its model from
    [checkpointUrl]; a name that is not in the known set is used as it is,
    whatever the size flag; and for known names the URL determines both
    the name and the size, so two different known models, or the two sizes
    of one, never share a URL.  The factory takes a missing size argument
    as large and any falsy one, [null] included, as small. *)
Theorem checkpointUrl_injective :
  (forall (name : string) (callback : JsVal) (large : bool),
     model (fst (SketchRNN_new name callback large))
     = newModel (checkpointUrl name large))
  /\ (forall (name : string) (large : bool),
        modelPaths_has name = false -> checkpointUrl name large = name)
  /\ (forall (n1 n2 : string) (l1 l2 : bool),
        modelPaths_has n1 = true -> modelPaths_has n2 = true ->
        checkpointUrl n1 l1 = checkpointUrl n2 l2 ->
        n1 = n2 /\ l1 = l2)
  /\ (forall (name : string) (callback large : JsVal),
        sketchRNN name callback large
        = SketchRNN_new name callback
            match large with
            | JUndefined => true
            | v => truthy v
            end).
Proof.
  split; [ reflexivity | ].
  split; [ intros name large H; unfold checkpointUrl; rewrite H; reflexivity | ].
  split.
  - intros n1 n2 l1 l2 H1 H2. unfold checkpointUrl. rewrite H1, H2.
    destruct l1, l2; intros H.
    + split; [ exact (@append_cancel _ _ _ _ H) | reflexivity ].
    + destruct (@bases_differ _ _ H).
    + symmetry in H. destruct (@bases_differ _ _ H).
    + split; [ exact (@append_cancel _ _ _ _ H) | reflexivity ].
  - intros name callback large. destruct large; reflexivity.
Qed.

(** While the load has not succeeded nothing is generated and the model is
    only ever asked for its zero input. *)
Lemma not_loaded_preserved (o : LoadOutcome) (ops : list Op) :
  o <> Loaded ->
  forall t : Trace,
    ready (now t) = o -> generated t = false -> rnnState (now t) = None ->
    Forall (fun c => c = CallZeroInput \/ c = CallInitialize) (history t) ->
    let t' := fold_left perform ops t in
    ready (now t') = o /\ generated t' = false /\ rnnState (now t') = None
    /\ Forall (fun c => c = CallZeroInput \/ c = CallInitialize) (history t').
Proof.
  intros Ho. induction ops as [ | op ops IH]; intros t Hr Hg Hn Hh; simpl.
  - auto.
  - apply IH; destruct op as [a1 a2 a3 | ]; simpl.
    + destruct (generate_cases a1 a2 a3 (now t))
        as [(_ & -> & _) | (_ & Hl & _)]; [ exact Hr | ].
      rewrite Hl in Hr. exfalso. apply Ho. symmetry. exact Hr.
    + rewrite reset_run. exact Hr.
    + destruct (generate_cases a1 a2 a3 (now t))
        as [(-> & _) | (_ & Hl & _)]; [ rewrite Hg; reflexivity | ].
      rewrite Hl in Hr. exfalso. apply Ho. symmetry. exact Hr.
    + exact Hg.
    + destruct (generate_cases a1 a2 a3 (now t))
        as [(_ & -> & _) | (_ & Hl & _)]; [ exact Hn | ].
      rewrite Hl in Hr. exfalso. apply Ho. symmetry. exact Hr.
    + rewrite reset_run. cbn [after rnnState]. rewrite Hn. reflexivity.
    + destruct (generate_cases a1 a2 a3 (now t))
        as [(_ & _ & ->) | (_ & Hl & _)];
        [ rewrite app_nil_r; exact Hh | ].
      rewrite Hl in Hr. exfalso. apply Ho. symmetry. exact Hr.
    + rewrite reset_run. cbn [calls]. rewrite Hn.
      apply Forall_app. split; [ exact Hh | ].
      constructor; [ left; reflexivity | constructor ].
Qed.

(** X12.  A load that fails, or never ends, is final.  In a session whose
    model did not load, whatever the caller does: [ready] keeps the
    outcome of the load, no [generate] is ever fulfilled, [rnnState] stays
    absent, and the model is never asked to set a pixel factor, update,
    give a distribution or sample. *)
Theorem failed_load_is_final (name : string) (callback : JsVal)
  (large : bool) (ops : list Op) :
  initialize (newModel (checkpointUrl name large)) <> Loaded ->
  let t := session name callback large ops in
  ready (now t) = initialize (newModel (checkpointUrl name large))
  /\ generated t = false
  /\ rnnState (now t) = None
  /\ Forall (fun c => c = CallZeroInput \/ c = CallInitialize) (history t)
  /\ (forall a1 a2 a3 : JsVal,
        is_resolved (completion (generate a1 a2 a3 (now t))) = false
        /\ after (generate a1 a2 a3 (now t)) = now t).
Proof.
  intros Ho. cbv zeta.
  destruct (@not_loaded_preserved _ ops Ho (start name callback large))
    as (Hr & Hg & Hn & Hh); try reflexivity.
  { simpl. constructor; [ left; reflexivity | ].
    constructor; [ right; reflexivity | constructor ]. }
  fold (session name callback large ops) in Hr, Hg, Hn, Hh.
  repeat (split; [ assumption | ]).
  intros a1 a2 a3.
  destruct (generate_cases a1 a2 a3 (now (session name callback large ops)))
    as [(H1 & H2 & _) | (_ & Hl & _)]; [ split; assumption | ].
  rewrite Hl in Hr. exfalso. apply Ho. symmetry. exact Hr.
Qed.

End SessionLife.

Section SessionAccounting.

Context {ms : MagentaSketch} {rt : Runtime} {paths : ModelPaths}.

Lemma once_per_stroke_holds (p : ModelCall -> bool) (l : list ModelCall) :
  p CallZeroInput = false -> p CallZeroState = false ->
  (forall x, p (CallSetPixelFactor x) = false) ->
  (forall v r, p (CallUpdateStrokes v r) = false) ->
  (forall (a1 a2 a3 : JsVal) (s : SketchRNN) (strokes : list Vec),
     let o := options_of a1 a2 a3 in
     let m := primed_model (resolved_pixelFactor o s) s in
     let r1 := seeded_state (resolved_pixelFactor o s) strokes s in
     let r2 := update m (penState s) r1 in
     count p [CallUpdate (penState s) r1;
              CallGetPDF r2 (resolved_temperature o s);
              CallSample (getPDF m r2 (resolved_temperature o s))] = 1) ->
  once_per_stroke p.
Proof.
  intros Hzi Hzs Hspf Hus Hthree. split.
  - intros a1 a2 a3 s.
    destruct (generate_cases a1 a2 a3 s)
      as [(-> & _ & ->) | (-> & Hr & strokes & Hs)]; [ reflexivity | ].
    rewrite (generate_loaded a1 a2 a3 s Hs Hr). cbn [calls].
    rewrite count_step by assumption. apply Hthree.
  - intros s. rewrite reset_run. cbn [calls]. unfold count.
    destruct (rnnState s); simpl; rewrite Hzi, ?Hzs; reflexivity.
Qed.

Lemma accounting (p : ModelCall -> bool) (ops : list Op) :
  once_per_stroke p ->
  forall t : Trace,
    count p (history (fold_left perform ops t))
    = count p (history t) + fulfilled_from t ops.
Proof.
  intros [Hgen Hreset].
  induction ops as [ | o ops IH]; intros t; simpl; [ lia | ].
  rewrite IH. destruct o as [a1 a2 a3 | ]; simpl; rewrite count_app.
  - rewrite Hgen. lia.
  - rewrite Hreset. lia.
Qed.

(** X13.  One stroke, one step, over a whole session.  Whatever the caller
    does with an instance, the model has been updated, asked for a
    distribution and sampled the same number of times, and that number is
    the number of [generate] calls that were fulfilled: no stroke is ever
    returned without its own update and sample, and a rejected call, a
    pending call or [reset()] never samples. *)
Theorem one_step_per_stroke (name : string) (callback : JsVal)
  (large : bool) (ops : list Op) :
  let t := session name callback large ops in
  let n := fulfilled_from (start name callback large) ops in
  count is_update (history t) = n
  /\ count is_getPDF (history t) = n
  /\ count is_sample (history t) = n
  /\ (generated t = true <-> 0 < n).
Proof.
  cbv zeta. unfold session.
  rewrite !accounting
    by (apply once_per_stroke_holds; try (intros; reflexivity); exact []).
  repeat split; try reflexivity.
  - intros Hg.
    assert (H : forall ops t, generated (fold_left perform ops t) = true ->
                generated t = true \/ 0 < fulfilled_from t ops).
    { clear. induction ops as [ | o ops IH];
        cbn [fold_left fulfilled_from]; intros t H; [ auto | ].
      destruct (IH _ H) as [Hp | Hn]; [ | right; lia ].
      destruct o as [a1 a2 a3 | ]; cbn [perform generated] in Hp; [ | auto ].
      destruct (generated t); [ auto | ]. cbn [orb] in Hp. rewrite Hp.
      right. lia. }
    destruct (H _ _ Hg) as [Hs | Hn]; [ discriminate Hs | exact Hn ].
  - intros Hn.
    assert (Hkeep : forall ops t, generated t = true ->
                      generated (fold_left perform ops t) = true).
    { clear. induction ops as [ | o ops IH]; cbn [fold_left]; intros t H;
        [ exact H | ].
      apply IH. destruct o; cbn [perform generated]; rewrite H; reflexivity. }
    assert (H : forall ops t, 0 < fulfilled_from t ops ->
                generated (fold_left perform ops t) = true).
    { clear - Hkeep. induction ops as [ | o ops IH];
        cbn [fold_left fulfilled_from]; intros t H; [ lia | ].
      destruct o as [a1 a2 a3 | ].
      - destruct (is_resolved (completion (generate a1 a2 a3 (now t)))) eqn:E.
        + apply Hkeep. cbn [perform generated]. rewrite E.
          apply Bool.orb_true_r.
        + apply IH. exact H.
      - apply IH. exact H. }
    apply H. exact Hn.
Qed.

End SessionAccounting.

(* ===================================================================== *)
(** ** These properties at work on the toy model *)
(* ===================================================================== *)

Section MoreInstances.

Import Toy.

(** A single stroke passed where the seed array belongs. *)
Lemma single_stroke_as_seed_rejected :
  truthy strokeA = true /\ is_array strokeA = false
  /\ generate (rt := runtime) (JObj []) strokeA JUndefined fresh
     = mkRun (Rejected (TypeError "seedStrokes.map is not a function"))
             fresh [].
Proof.
  split; [ reflexivity | ]. split; [ reflexivity | ].
  exact (@non_array_seed_rejected sketch runtime (JObj []) strokeA JUndefined
           fresh eq_refl eq_refl eq_refl eq_refl eq_refl eq_refl).
Defined.




(** Two sessions with different pasts are the same after [reset()]. *)
Lemma reset_forgets_history_fresh :
  penState (after (generate (rt := runtime) JUndefined JUndefined JUndefined
                     fresh))
  <> penState (after (generate (rt := runtime) (JArr [strokeA]) JUndefined
                        JUndefined fresh))
  /\ after (reset (after (generate (rt := runtime) JUndefined JUndefined
                            JUndefined fresh)))
     = after (reset (after (generate (rt := runtime) (JArr [strokeA])
                               JUndefined JUndefined fresh))).
Proof.
  split.
  - intros H. vm_compute in H. discriminate H.
  - assert (Hn : rnnState (after (generate (rt := runtime) JUndefined
                                    JUndefined JUndefined fresh)) = None
                 <-> rnnState (after (generate (rt := runtime)
                                        (JArr [strokeA]) JUndefined
                                        JUndefined fresh)) = None).
    { split; intros H; vm_compute in H; discriminate H. }
    exact (proj1 (@reset_forgets_history sketch runtime
                    (after (generate (rt := runtime) JUndefined JUndefined
                              JUndefined fresh))
                    (after (generate (rt := runtime) (JArr [strokeA])
                              JUndefined JUndefined fresh))
                    eq_refl eq_refl eq_refl Hn)).
Defined.

(** A session on a model that cannot be loaded. *)
Lemma failed_load_is_final_toy :
  @initialize sketch (newModel (checkpointUrl (paths := paths) "" true)) <> Loaded
  /\ generated
       (session (ms := sketch) (rt := runtime) (paths := paths) "" JUndefined true
          [OpGenerate JUndefined JUndefined JUndefined; OpReset;
           OpGenerate (JArr [strokeA]) JUndefined JUndefined]) = false
  /\ rnnState
       (now (session (ms := sketch) (rt := runtime) (paths := paths) "" JUndefined true
               [OpGenerate JUndefined JUndefined JUndefined; OpReset;
                OpGenerate (JArr [strokeA]) JUndefined JUndefined])) = None.
Proof.
  assert (Ho : @initialize sketch (newModel (checkpointUrl (paths := paths) "" true))
               <> Loaded).
  { intros H. vm_compute in H. discriminate H. }
  split; [ exact Ho | ].
  destruct (@failed_load_is_final sketch runtime paths "" JUndefined true
              [OpGenerate JUndefined JUndefined JUndefined; OpReset;
               OpGenerate (JArr [strokeA]) JUndefined JUndefined] Ho)
    as (_ & Hg & Hn & _).
  split; [ exact Hg | exact Hn ].
Defined.

End MoreInstances.
